(** * OAuth token lifecycle of linkedln-commits

    A shallow embedding of the token lifecycle code:
    - [src/database/models/oauthToken.js]: the OAuthToken schema, its
      instance methods [isAccessTokenExpired], [isRefreshTokenExpired] and
      the static query [findTokensNeedingRefresh];
    - [src/src/api/oauthService.js]: [refreshAccessToken], [storeTokens],
      [getValidAccessToken], [revokeTokens], [refreshExpiringTokens];
    - [src/src/api/oauthController.js]: the state check of [callback].

    Time values are ECMAScript time values (milliseconds since the epoch,
    as Z).  The [Date] setters used by the code ([setSeconds], [setDate])
    work on local time, so the server's time zone is an explicit
    parameter.  The MongoDB collection is a finite map from [user_id] to
    the one document of that user (provider is always ['linkedin']; the
    unique index on (user_id, provider) makes this a map).  Effects on the
    collection and the calls to LinkedIn's token endpoint are threaded
    through a small state and error monad. *)

From stdpp Require Import base gmap strings list fin_maps.
From Stdlib Require Import ZArith Lia Ascii.

Open Scope Z_scope.

(* ------------------------------------------------------------------ *)
(** ** JavaScript values *)

(** [undefined]/[null] versus a string: the truthiness test [!x] of JS. *)
Definition js_truthy_str (x : option string) : bool :=
  match x with
  | Some s => negb (String.eqb s "")
  | None => false
  end.

(** [a || b] on two possibly undefined strings, as used in the
    error messages. *)
Definition js_or_str (a b : option string) : option string :=
  if js_truthy_str a then a else b.

(** String conversion in a template literal / URLSearchParams. *)
Definition js_to_string (x : option string) : string :=
  match x with
  | Some s => s
  | None => "undefined"
  end.

(** The truthiness of a number (NaN is not modelled). *)
Definition js_truthy_num (x : option Z) : bool :=
  match x with
  | Some n => negb (Z.eqb n 0)
  | None => false
  end.

(* ------------------------------------------------------------------ *)
(** ** ECMAScript Date arithmetic in local time *)

(** A time zone, as seen by the ECMAScript abstract operations:
    [tza_utc t] is LocalTZA(t, true), the offset at UTC time value [t];
    [tza_local l] is LocalTZA(l, false), the offset used to read the
    local time value [l] back as UTC. *)
Record TimeZone := {
  tza_utc : Z -> Z;
  tza_local : Z -> Z
}.

Definition msPerSecond : Z := 1000.
Definition msPerDay : Z := 86400000.

(** LocalTime(t) and UTC(l) of ECMA-262 21.4.1. *)
Definition LocalTime (tz : TimeZone) (t : Z) : Z := t + tza_utc tz t.
Definition UTC (tz : TimeZone) (l : Z) : Z := l - tza_local tz l.

(** [d.setSeconds(d.getSeconds() + n)] for an integer [n]: with
    t = LocalTime(d), MakeDate(Day(t), MakeTime(Hour(t), Min(t),
    Sec(t) + n, ms(t))) is [t + n * 1000], then UTC is applied. *)
Definition addSecondsLocal (tz : TimeZone) (d : Z) (n : Z) : Z :=
  UTC tz (LocalTime tz d + n * msPerSecond).

(** [d.setDate(d.getDate() + n)]: MakeDay moves the local date by [n]
    days and keeps TimeWithinDay. *)
Definition addDaysLocal (tz : TimeZone) (d : Z) (n : Z) : Z :=
  UTC tz (LocalTime tz d + n * msPerDay).

(** A zone with a fixed offset (e.g. TZ=UTC). *)
Definition fixed_zone (off : Z) : TimeZone :=
  {| tza_utc := fun _ => off; tza_local := fun _ => off |}.

(* ------------------------------------------------------------------ *)
(** ** The OAuthToken document *)

(** Fields of the schema used by the code.  [access_token] and
    [refresh_token] are [select: false]; the code always selects them with
    ['+access_token +refresh_token'], so they are fields of the record.
    [None] is a field that is absent or null.  The audit timestamps
    ([created_at], [updated_at]) are not read by the code and are left
    out. *)
Record OAuthToken := {
  user_id : string;
  access_token : option string;
  refresh_token : option string;
  token_type : string;
  expires_at : Z;
  refresh_expires_at : option Z;
  scope : option string
}.

(** The collection: one document per user (provider fixed to linkedin). *)
Abbreviation Collection := (gmap string OAuthToken).

(** [oauthTokenSchema.methods.isAccessTokenExpired]:
    [return new Date() >= this.expires_at;] *)
Definition isAccessTokenExpired (now : Z) (doc : OAuthToken) : bool :=
  Z.leb (expires_at doc) now.

(** [oauthTokenSchema.methods.isRefreshTokenExpired]: a null
    [refresh_expires_at] never expires. *)
Definition isRefreshTokenExpired (now : Z) (doc : OAuthToken) : bool :=
  match refresh_expires_at doc with
  | None => false
  | Some t => Z.leb t now
  end.

(** [oauthTokenSchema.methods.needsRefresh] (one local day ahead). *)
Definition needsRefresh (tz : TimeZone) (now : Z) (doc : OAuthToken) : bool :=
  Z.leb (expires_at doc) (addDaysLocal tz now 1).

(** [oauthTokenSchema.statics.findTokensNeedingRefresh]: the query
    [{ expires_at: { $lte: oneDayFromNow },
       refresh_token: { $exists: true, $ne: null } }]. *)
Definition needs_refresh_query (tz : TimeZone) (now : Z) (doc : OAuthToken) : bool :=
  Z.leb (expires_at doc) (addDaysLocal tz now 1) &&
  match refresh_token doc with Some _ => true | None => false end.

Definition findTokensNeedingRefresh_docs (tz : TimeZone) (now : Z)
    (db : Collection) : list OAuthToken :=
  filter (fun d => needs_refresh_query tz now d = true) (map snd (map_to_list db)).

(* ------------------------------------------------------------------ *)
(** ** [findOneAndUpdate(..., { upsert: true, new: true })] *)

(** The update document built by [storeTokens].  [None] in
    [u_access_token], [u_refresh_token] and [u_scope] is the value
    [undefined]: Mongoose drops undefined keys from an update, so the
    stored field is left as it was.  [u_refresh_expires_at] is always
    written ([null] is a value). *)
Record TokenUpdate := {
  u_access_token : option string;
  u_refresh_token : option string;
  u_token_type : string;
  u_expires_at : Z;
  u_refresh_expires_at : option Z;
  u_scope : option string
}.

Definition set_if_defined {A} (v : option A) (old : option A) : option A :=
  match v with Some _ => v | None => old end.

Definition apply_update (doc : OAuthToken) (u : TokenUpdate) : OAuthToken :=
  {| user_id := user_id doc;
     access_token := set_if_defined (u_access_token u) (access_token doc);
     refresh_token := set_if_defined (u_refresh_token u) (refresh_token doc);
     token_type := u_token_type u;
     expires_at := u_expires_at u;
     refresh_expires_at := u_refresh_expires_at u;
     scope := set_if_defined (u_scope u) (scope doc) |}.

(** The document inserted by an upsert before the update is applied:
    the query fields and the schema defaults ([token_type: 'Bearer']). *)
Definition fresh_doc (uid : string) : OAuthToken :=
  {| user_id := uid; access_token := None; refresh_token := None;
     token_type := "Bearer"; expires_at := 0;
     refresh_expires_at := None; scope := None |}.

Definition upsert_doc (db : Collection) (uid : string) (u : TokenUpdate) : OAuthToken :=
  match db !! uid with
  | Some doc => apply_update doc u
  | None => apply_update (fresh_doc uid) u
  end.

(* ------------------------------------------------------------------ *)
(** ** Token endpoint responses *)

(** [tokenData], the JSON body of a successful token response.
    [expires_in] is the integer number of seconds LinkedIn sends. *)
Record TokenData := {
  td_access_token : option string;
  td_expires_in : Z;
  td_refresh_token : option string;
  td_refresh_token_expires_in : option Z;
  td_token_type : option string;
  td_scope : option string
}.

(** What [axios.post(config.linkedin.tokenUrl, ...)] does: a 2xx body, an
    error with [error.response] (its [data.error_description] and
    [data.error]), or an error without a response (transport failure). *)
Inductive TokenResponse :=
  | Resp_ok (data : TokenData)
  | Resp_http_error (error_description : option string) (error : option string)
  | Resp_transport (message : string).

(* ------------------------------------------------------------------ *)
(** ** The effect monad *)

(** The observable world: the collection and the number of requests sent
    to LinkedIn's token endpoint. *)
Record World := {
  db : Collection;
  net_calls : nat
}.

(** A computation throws an [Error] (its message) or returns a value. *)
Definition M (A : Type) : Type := World -> (string + A) * World.

Definition ret {A} (x : A) : M A := fun w => (inr x, w).
Definition throw {A} (msg : string) : M A := fun w => (inl msg, w).
Definition bindM {A B} (m : M A) (k : A -> M B) : M B :=
  fun w => match m w with
           | (inl e, w') => (inl e, w')
           | (inr x, w') => k x w'
           end.
(** [try { m } catch (err) { h(err.message) }]: the effects of [m] stay. *)
Definition tryM {A} (m : M A) (h : string -> M A) : M A :=
  fun w => match m w with
           | (inl e, w') => h e w'
           | (inr x, w') => (inr x, w')
           end.

Notation "'let*' x := c 'in' k" := (bindM c (fun x => k))
  (at level 200, x name, c at level 100, k at level 200).

Definition set_db (w : World) (d : Collection) : World :=
  {| db := d; net_calls := net_calls w |}.
Definition tick (w : World) : World :=
  {| db := db w; net_calls := S (net_calls w) |}.

Section Lifecycle.

(** The server's time zone. *)
Variable tz : TimeZone.
(** The value of [new Date()] during the operation. *)
Variable now : Z.
(** LinkedIn's token endpoint, as a function of the refresh token sent. *)
Variable linkedin : string -> TokenResponse.
(** [Some msg] when the database rejects every operation with [msg]. *)
Variable db_down : option string.

(** *** Database operations *)

Definition db_guard {A} (m : M A) : M A :=
  match db_down with
  | Some msg => throw msg
  | None => m
  end.

(** [OAuthToken.findOne({ user_id, provider: 'linkedin' })
      .select('+access_token +refresh_token')] *)
Definition findOne (uid : string) : M (option OAuthToken) :=
  db_guard (fun w => (inr (db w !! uid), w)).

(** [OAuthToken.findOneAndUpdate(filter, update,
      { upsert: true, new: true, setDefaultsOnInsert: true })] *)
Definition findOneAndUpdate (uid : string) (u : TokenUpdate) : M OAuthToken :=
  db_guard (fun w =>
    let doc := upsert_doc (db w) uid u in
    (inr doc, set_db w (<[uid := doc]> (db w)))).

(** [OAuthToken.deleteOne({ user_id, provider: 'linkedin' })] *)
Definition deleteOne (uid : string) : M unit :=
  db_guard (fun w => (inr tt, set_db w (delete uid (db w)))).

(** [OAuthToken.findTokensNeedingRefresh()] *)
Definition findTokensNeedingRefresh : M (list OAuthToken) :=
  db_guard (fun w => (inr (findTokensNeedingRefresh_docs tz now (db w)), w)).

(** *** OAuthService *)

(** [OAuthService.refreshAccessToken(refreshToken)]: one POST to the token
    endpoint; both failure kinds are rethrown as ["Token refresh failed: ..."]. *)
Definition refreshAccessToken (refreshToken : string) : M TokenData :=
  fun w =>
    let w' := tick w in
    match linkedin refreshToken with
    | Resp_ok data => (inr data, w')
    | Resp_http_error desc err =>
        (inl (String.append "Token refresh failed: "
                (js_to_string (js_or_str desc err))), w')
    | Resp_transport msg =>
        (inl (String.append "Token refresh failed: " msg), w')
    end.

(** The update document of [storeTokens]: relative expiries are turned
    into absolute dates with [new Date()] and [setSeconds]. *)
Definition token_update (tokenData : TokenData) : TokenUpdate :=
  let expiresAt := addSecondsLocal tz now (td_expires_in tokenData) in
  let refreshExpiresAt :=
    if js_truthy_num (td_refresh_token_expires_in tokenData)
    then Some (addSecondsLocal tz now
                 (default 0 (td_refresh_token_expires_in tokenData)))
    else None in
  {| u_access_token := td_access_token tokenData;
     u_refresh_token := td_refresh_token tokenData;
     u_token_type := if js_truthy_str (td_token_type tokenData)
                     then js_to_string (td_token_type tokenData)
                     else "Bearer";
     u_expires_at := expiresAt;
     u_refresh_expires_at := refreshExpiresAt;
     u_scope := td_scope tokenData |}.

(** [OAuthService.storeTokens(userId, tokenData)] *)
Definition storeTokens (userId : string) (tokenData : TokenData) : M OAuthToken :=
  findOneAndUpdate userId (token_update tokenData).

(** [OAuthService.getValidAccessToken(userId)]; the result is the
    [access_token] value returned (possibly undefined). *)
Definition getValidAccessToken (userId : string) : M (option string) :=
  let* tokenDoc := findOne userId in
  match tokenDoc with
  | None => throw "No OAuth token found for user"
  | Some doc =>
      if negb (isAccessTokenExpired now doc) then ret (access_token doc)
      else if negb (js_truthy_str (refresh_token doc)) then
        throw "Access token expired and no refresh token available"
      else if isRefreshTokenExpired now doc then
        throw "Both access and refresh tokens are expired. Re-authentication required."
      else
        let* newTokenData := refreshAccessToken (js_to_string (refresh_token doc)) in
        let* _ := storeTokens userId newTokenData in
        ret (td_access_token newTokenData)
  end.

(** [OAuthService.revokeTokens(userId)] *)
Definition revokeTokens (userId : string) : M unit :=
  deleteOne userId.

(** The [results] object of [refreshExpiringTokens]. *)
Record RefreshResults := {
  success : nat;
  failed : nat;
  errors : list (string * string)  (* { userId, error } *)
}.

Definition record_failure (res : RefreshResults) (uid msg : string) : RefreshResults :=
  {| success := success res; failed := S (failed res);
     errors := errors res ++ [(uid, msg)] |}.

Definition record_success (res : RefreshResults) : RefreshResults :=
  {| success := S (success res); failed := failed res; errors := errors res |}.

(** The body of the [for (const tokenDoc of tokensNeedingRefresh)] loop,
    with its own [try]/[catch]. *)
Definition refresh_one (res : RefreshResults) (tokenDoc : OAuthToken) : M RefreshResults :=
  tryM
    (if isRefreshTokenExpired now tokenDoc then
       ret (record_failure res (user_id tokenDoc) "Refresh token expired")
     else
       let* newTokenData := refreshAccessToken (js_to_string (refresh_token tokenDoc)) in
       let* _ := storeTokens (user_id tokenDoc) newTokenData in
       ret (record_success res))
    (fun msg => ret (record_failure res (user_id tokenDoc) msg)).

Fixpoint refresh_loop (docs : list OAuthToken) (res : RefreshResults) : M RefreshResults :=
  match docs with
  | [] => ret res
  | d :: rest => let* res' := refresh_one res d in refresh_loop rest res'
  end.

Definition empty_results : RefreshResults :=
  {| success := 0; failed := 0; errors := [] |}.

(** [OAuthService.refreshExpiringTokens()] *)
Definition refreshExpiringTokens : M RefreshResults :=
  tryM
    (let* tokensNeedingRefresh := findTokensNeedingRefresh in
     refresh_loop tokensNeedingRefresh empty_results)
    (fun msg => throw (String.append "Failed to refresh expiring tokens: " msg)).

End Lifecycle.

(** The failure, if any, the sweep meets on one loaded document, named by
    the message its [catch] records: an expired refresh token, the error
    thrown by [refreshAccessToken], or the error of the database write in
    [storeTokens]; [None] when the document is refreshed and stored. *)
Definition refresh_failure (now : Z) (linkedin : string -> TokenResponse)
    (db_down : option string) (d : OAuthToken) : option string :=
  if isRefreshTokenExpired now d then Some "Refresh token expired"
  else match linkedin (js_to_string (refresh_token d)) with
       | Resp_ok _ => db_down
       | Resp_http_error desc err =>
           Some (String.append "Token refresh failed: " (js_to_string (js_or_str desc err)))
       | Resp_transport m => Some (String.append "Token refresh failed: " m)
       end.

(** The [{ userId, error }] entries of the failing documents, in order. *)
Definition refresh_failures (now : Z) (linkedin : string -> TokenResponse)
    (db_down : option string) (docs : list OAuthToken) : list (string * string) :=
  flat_map (fun d => match refresh_failure now linkedin db_down d with
                     | Some m => [(user_id d, m)]
                     | None => []
                     end) docs.

(* ------------------------------------------------------------------ *)
(** ** OAuthController.callback: the checks before the code exchange *)

(** [req.query] of the callback. *)
Record CallbackQuery := {
  q_code : option string;
  q_state : option string;
  q_error : option string;
  q_error_description : option string
}.

(** [req.session]: [None] when there is no session object; otherwise the
    value of [req.session.oauthState]. *)
Abbreviation Session := (option (option string)).

(** Where [callback] goes after its parameter checks: one of the 400
    responses, or on to [exchangeCodeForToken] with the session as it is
    then. *)
Inductive CallbackOutcome :=
  | CB_oauth_error (error : string) (userCancelled : bool)
  | CB_missing_code
  | CB_missing_state
  | CB_invalid_state
  | CB_exchange (session : Session).

Definition callback_checks (q : CallbackQuery) (session : Session) : CallbackOutcome :=
  if js_truthy_str (q_error q) then
    CB_oauth_error (js_to_string (q_error q))
      (String.eqb (js_to_string (q_error q)) "user_cancelled_authorize")
  else if negb (js_truthy_str (q_code q)) then CB_missing_code
  else if negb (js_truthy_str (q_state q)) then CB_missing_state
  else
    match session with
    | Some oauthState =>
        if js_truthy_str oauthState then
          if negb (String.eqb (js_to_string (q_state q)) (js_to_string oauthState))
          then CB_invalid_state
          else CB_exchange (Some None)   (* delete req.session.oauthState *)
        else CB_exchange session
    | None => CB_exchange session
    end.

(* ------------------------------------------------------------------ *)
(** ** A server time zone with daylight saving time *)

(** America/New_York around the end of DST on 2026-11-01 (06:00 UTC, when
    02:00 EDT becomes 01:00 EST): UTC-4 before, UTC-5 after.  Local times in
    the repeated hour 01:00-02:00 are read with the offset before the
    transition (ECMA-262 LocalTZA(t, false)).  It agrees with the real
    zone for UTC times in [2026-03-08T07:00Z, 2027-03-14T07:00Z). *)
Definition ny_dst_end_2026 : Z := 1793512800000.

Definition new_york_2026 : TimeZone :=
  {| tza_utc := fun t => if t <? ny_dst_end_2026 then -14400000 else -18000000;
     tza_local := fun l => if l <? ny_dst_end_2026 - 14400000
                           then -14400000 else -18000000 |}.

(* ------------------------------------------------------------------ *)
(** ** OAuthService.hasValidToken and the route handlers using it *)

(** [String.prototype.includes]. *)
Definition js_includes (s pat : string) : bool :=
  match String.index 0 pat s with Some _ => true | None => false end.

(** A document of the User collection, as far as the handlers read it
    ([_id], [name], [linkedin_url]); they only look users up by id. *)
Record UserDoc := {
  usr_id : string;
  usr_name : string;
  usr_linkedin_url : string
}.

#[local] Set Warnings "-register-all".

(** A JSON body sent by [res.json]; keys whose value is [undefined] are
    left out, as [JSON.stringify] does. *)
Inductive Json :=
  | JNull
  | JBool (b : bool)
  | JStr (s : string)
  | JObj (fields : list (string * Json)).

Definition json_opt_str (k : string) (v : option string) : list (string * Json) :=
  match v with Some s => [(k, JStr s)] | None => [] end.

(** [{ id: user._id, name: user.name, linkedin_url: user.linkedin_url }] *)
Definition user_json (u : UserDoc) : Json :=
  JObj [("id", JStr (usr_id u)); ("name", JStr (usr_name u));
        ("linkedin_url", JStr (usr_linkedin_url u))].

(** The parts of an Express request the handlers read or set:
    [req.session] (with its [userId]), [req.headers['x-user-id']],
    [req.body.userId], [req.query.userId], and [req.user] /
    [req.accessToken] set by the middlewares ([None] when unset). *)
Record SessionData := { s_userId : option string }.

Record Request := {
  req_session : option SessionData;
  req_header_user_id : option string;
  req_body_user_id : option string;
  req_query_user_id : option string;
  req_user : option UserDoc;
  req_accessToken : option (option string)
}.

(** [req.session?.userId] *)
Definition session_user_id (req : Request) : option string :=
  match req_session req with Some s => s_userId s | None => None end.

Definition set_req_user (req : Request) (u : UserDoc) : Request :=
  {| req_session := req_session req; req_header_user_id := req_header_user_id req;
     req_body_user_id := req_body_user_id req; req_query_user_id := req_query_user_id req;
     req_user := Some u; req_accessToken := req_accessToken req |}.

Definition set_req_accessToken (req : Request) (t : option string) : Request :=
  {| req_session := req_session req; req_header_user_id := req_header_user_id req;
     req_body_user_id := req_body_user_id req; req_query_user_id := req_query_user_id req;
     req_user := req_user req; req_accessToken := Some t |}.

(** What a middleware does: call [next()] with the request as updated, or
    answer with a status and a JSON body. *)
Inductive MwResult :=
  | MwNext (req : Request)
  | MwReply (status : Z) (body : Json).

Definition error_body (error message : string) : Json :=
  JObj [("error", JStr error); ("message", JStr message)].

Definition error_body_details (error message details : string) : Json :=
  JObj [("error", JStr error); ("message", JStr message); ("details", JStr details)].

(** The message of the TypeError thrown by [user._id] on a null [user]. *)
Definition null_id_message : string := "Cannot read properties of null (reading '_id')".

Section Handlers.

Variable tz : TimeZone.
Variable now : Z.
Variable linkedin : string -> TokenResponse.
Variable db_down : option string.
(** The User collection, by [_id]. *)
Variable users : gmap string UserDoc.

(** [OAuthService.hasValidToken(userId)] *)
Definition hasValidToken (userId : string) : M bool :=
  tryM (let* _ := getValidAccessToken tz now linkedin db_down userId in ret true)
       (fun _ => ret false).

(** [User.findById(userId)] *)
Definition findUserById (userId : string) : M (option UserDoc) :=
  db_guard db_down (fun w => (inr (users !! userId), w)).

(** [requireAuth(req, res, next)] *)
Definition requireAuth (req : Request) : M MwResult :=
  let userId := js_or_str (session_user_id req) (req_header_user_id req) in
  tryM
    (if negb (js_truthy_str userId) then
       ret (MwReply 401 (error_body "unauthorized" "Authentication required. Please log in."))
     else
       let* ok := hasValidToken (js_to_string userId) in
       if negb ok then
         ret (MwReply 401 (error_body "token_expired"
                            "Authentication token expired. Please log in again."))
       else
         let* user := findUserById (js_to_string userId) in
         match user with
         | None => ret (MwReply 401 (error_body "user_not_found" "User not found"))
         | Some u => ret (MwNext (set_req_user req u))
         end)
    (fun msg => ret (MwReply 500 (error_body_details "auth_check_failed"
                                    "Failed to verify authentication" msg))).

(** [req.user?._id || req.session?.userId || req.headers['x-user-id']];
    [req.user._id] is an ObjectId, so it is truthy whenever [req.user] is
    set. *)
Definition access_user_id (req : Request) : option string :=
  match req_user req with
  | Some u => Some (usr_id u)
  | None => js_or_str (session_user_id req) (req_header_user_id req)
  end.

(** [withAccessToken(req, res, next)] *)
Definition withAccessToken (req : Request) : M MwResult :=
  let userId := access_user_id req in
  tryM
    (if negb (js_truthy_str userId) then
       ret (MwReply 401 (error_body "unauthorized" "User not authenticated"))
     else
       let* accessToken := getValidAccessToken tz now linkedin db_down (js_to_string userId) in
       ret (MwNext (set_req_accessToken req accessToken)))
    (fun msg =>
       if js_includes msg "expired" then ret (MwReply 401 (error_body "token_expired" msg))
       else ret (MwReply 500 (error_body_details "token_retrieval_failed"
                                "Failed to get access token" msg))).

(** [optionalAuth(req, res, next)] *)
Definition optionalAuth (req : Request) : M MwResult :=
  let userId := js_or_str (session_user_id req) (req_header_user_id req) in
  tryM
    (if js_truthy_str userId then
       let* ok := hasValidToken (js_to_string userId) in
       if ok then
         let* user := findUserById (js_to_string userId) in
         match user with
         | Some u => ret (MwNext (set_req_user req u))
         | None => ret (MwNext req)
         end
       else ret (MwNext req)
     else ret (MwNext req))
    (fun _ => ret (MwNext req)).

(** [OAuthController.logout(req, res)]: the reply, and whether
    [req.session.destroy()] was called. *)
Definition logout (req : Request) : M ((Z * Json) * bool) :=
  let userId := js_or_str (session_user_id req) (req_body_user_id req) in
  tryM
    (if negb (js_truthy_str userId) then
       ret ((400, error_body "missing_user_id" "User ID not provided"), false)
     else
       let* _ := revokeTokens db_down (js_to_string userId) in
       ret ((200, JObj [("success", JBool true); ("message", JStr "Logged out successfully")]),
            match req_session req with Some _ => true | None => false end))
    (fun msg => ret ((500, error_body_details "logout_failed" "Failed to logout" msg), false)).

(** [OAuthController.status(req, res)]; a null [user] makes [user._id]
    throw a TypeError, caught by the handler. *)
Definition status (req : Request) : M (Z * Json) :=
  let userId := js_or_str (session_user_id req) (req_query_user_id req) in
  tryM
    (if negb (js_truthy_str userId) then
       ret (200, JObj [("authenticated", JBool false); ("message", JStr "Not authenticated")])
     else
       let* ok := hasValidToken (js_to_string userId) in
       if negb ok then
         ret (200, JObj [("authenticated", JBool false);
                         ("message", JStr "Token expired or invalid")])
       else
         let* user := findUserById (js_to_string userId) in
         match user with
         | None => throw null_id_message
         | Some u => ret (200, JObj [("authenticated", JBool true); ("user", user_json u)])
         end)
    (fun msg => ret (500, error_body_details "status_check_failed"
                           "Failed to check authentication status" msg)).

(** [OAuthController.refresh(req, res)] *)
Definition refresh (req : Request) : M (Z * Json) :=
  let userId := js_or_str (session_user_id req) (req_body_user_id req) in
  tryM
    (if negb (js_truthy_str userId) then
       ret (400, error_body "missing_user_id" "User ID not provided")
     else
       let* accessToken := getValidAccessToken tz now linkedin db_down (js_to_string userId) in
       ret (200, JObj ([("success", JBool true);
                        ("message", JStr "Token refreshed successfully")] ++
                       json_opt_str "accessToken" accessToken)))
    (fun msg => ret (500, error_body_details "refresh_failed" "Failed to refresh token" msg)).

End Handlers.

(* ------------------------------------------------------------------ *)
(** ** OAuthService.generateState: [crypto.randomBytes(32).toString('hex')] *)

Local Open Scope nat_scope.

(** Lowercase hex digit of [n < 16]: ['0'..'9'] (codes 48..57), then
    ['a'..'f'] (codes 97..102). *)
Definition hex_digit (n : nat) : ascii :=
  ascii_of_nat (if n <? 10 then 48 + n else 87 + n).

(** [Buffer.prototype.toString('hex')]: two lowercase digits per byte. *)
Fixpoint to_hex (bs : list Byte.byte) : string :=
  match bs with
  | [] => EmptyString
  | b :: rest =>
      let n := Byte.to_nat b in
      String (hex_digit (Nat.div n 16)) (String (hex_digit (Nat.modulo n 16)) (to_hex rest))
  end.

(** [generateState()], given the 32 bytes drawn by [crypto.randomBytes]. *)
Definition generateState (random32 : list Byte.byte) : string := to_hex random32.

(** Reading a hex string back into bytes (used to state injectivity). *)
Definition hex_value (c : ascii) : option nat :=
  let k := nat_of_ascii c in
  if (48 <=? k) && (k <=? 57) then Some (k - 48)
  else if (97 <=? k) && (k <=? 102) then Some (k - 87)
  else None.

Fixpoint of_hex (s : string) : option (list Byte.byte) :=
  match s with
  | EmptyString => Some []
  | String hi (String lo rest) =>
      match hex_value hi, hex_value lo, of_hex rest with
      | Some h, Some l, Some bs =>
          match Byte.of_nat (h * 16 + l) with
          | Some b => Some (b :: bs)
          | None => None
          end
      | _, _, _ => None
      end
  | String _ EmptyString => None
  end.

Local Open Scope Z_scope.

(* ================================================================== *)
(** * Properties *)

(** Unfolding the monad and the database guard. *)
Ltac run_m :=
  repeat (unfold getValidAccessToken, refreshExpiringTokens, revokeTokens,
            storeTokens, findOne, findOneAndUpdate, deleteOne,
            findTokensNeedingRefresh, db_guard, bindM, tryM, ret, throw in *;
          simpl in *).

(** Messages of the two "re-authentication required" failures. *)
Definition reauth_error (msg : string) : Prop :=
  msg = "Access token expired and no refresh token available" \/
  msg = "Both access and refresh tokens are expired. Re-authentication required.".

(** C1: a stored token whose [expires_at] is still in the future (also
    within the one-day refresh window) is returned as stored; the world,
    and so the number of requests to the token endpoint, is unchanged. *)
Theorem getValidAccessToken_unexpired (tz : TimeZone) (now : Z)
    (linkedin : string -> TokenResponse) (uid : string) (doc : OAuthToken) (w : World)
    (Hstored : db w !! uid = Some doc) (Hfuture : now < expires_at doc) :
  getValidAccessToken tz now linkedin None uid w = (inr (access_token doc), w).
Proof.
  run_m. rewrite Hstored. unfold isAccessTokenExpired.
  replace (expires_at doc <=? now) with false by (symmetry; apply Z.leb_gt; lia).
  reflexivity.
Qed.

(** C2 (as stated, refuted): with no expected state in the session, a
    callback carrying any state, here an attacker's, passes the state check
    and goes on to the code exchange. *)
Lemma callback_missing_expected_state_accepted :
  callback_checks {| q_code := Some "code"; q_state := Some "attacker-state";
                     q_error := None; q_error_description := None |}
                  (Some None)
  = CB_exchange (Some None).
Proof. reflexivity. Qed.

(** C2 (amended): with a code and no provider error, an absent or empty
    received state fails with missing_state; when the session holds a
    non-empty expected state the callback proceeds exactly when the two
    are equal (and the expected state is cleared) and fails with
    invalid_state otherwise; when the session holds no expected state
    (no session, or oauthState unset or empty) the comparison is skipped
    and the callback proceeds. *)
Theorem callback_state_check (q : CallbackQuery) (session : Session)
    (Hnoerr : js_truthy_str (q_error q) = false)
    (Hcode : js_truthy_str (q_code q) = true) :
  (js_truthy_str (q_state q) = false -> callback_checks q session = CB_missing_state) /\
  (forall s e, q_state q = Some s -> s <> "" -> session = Some (Some e) -> e <> "" ->
     callback_checks q session = if String.eqb s e then CB_exchange (Some None)
                                 else CB_invalid_state) /\
  (forall s, q_state q = Some s -> s <> "" ->
     (session = None \/ session = Some None \/ session = Some (Some "")) ->
     callback_checks q session = CB_exchange session).
Proof.
  unfold callback_checks. rewrite Hnoerr, Hcode. simpl.
  split; [|split].
  - intros Hs. rewrite Hs. reflexivity.
  - intros s e Hq Hs Hsess He. subst session. rewrite Hq.
    unfold js_truthy_str, js_to_string.
    apply String.eqb_neq in Hs. apply String.eqb_neq in He. rewrite Hs, He. simpl.
    destruct (String.eqb s e); reflexivity.
  - intros s Hq Hs Hsess. rewrite Hq. unfold js_truthy_str at 1.
    apply String.eqb_neq in Hs. rewrite Hs. simpl.
    destruct Hsess as [-> | [-> | ->]]; reflexivity.
Qed.

(** C3: a record whose access token has expired and which has no refresh
    token, or a refresh token whose [refresh_expires_at] has passed, makes
    [getValidAccessToken] fail with a re-authentication error without any
    request and without touching the store; an absent [refresh_expires_at]
    never expires, so an expired access token with a refresh token and no
    [refresh_expires_at] is always refreshed (one request) and never fails
    for re-authentication. *)
Theorem getValidAccessToken_reauth :
  (forall tz now linkedin uid doc w,
     db w !! uid = Some doc ->
     expires_at doc <= now ->
     (refresh_token doc = None \/
      exists t, refresh_expires_at doc = Some t /\ t <= now) ->
     exists msg, getValidAccessToken tz now linkedin None uid w = (inl msg, w) /\
                 reauth_error msg) /\
  (forall now doc, refresh_expires_at doc = None -> isRefreshTokenExpired now doc = false) /\
  (forall tz now linkedin uid doc w,
     db w !! uid = Some doc ->
     expires_at doc <= now ->
     js_truthy_str (refresh_token doc) = true ->
     refresh_expires_at doc = None ->
     (forall msg, fst (getValidAccessToken tz now linkedin None uid w) = inl msg ->
                  ~ reauth_error msg) /\
     net_calls (snd (getValidAccessToken tz now linkedin None uid w)) = S (net_calls w)).
Proof.
  split; [|split].
  - intros tz now linkedin uid doc w Hstored Hexp Hnr. run_m. rewrite Hstored.
    unfold isAccessTokenExpired. apply Z.leb_le in Hexp. rewrite Hexp. simpl.
    destruct Hnr as [Hnone | [t [Ht Hle]]].
    + rewrite Hnone. simpl. eexists. split; [reflexivity | left; reflexivity].
    + destruct (js_truthy_str (refresh_token doc)); simpl.
      * unfold isRefreshTokenExpired. rewrite Ht.
        apply Z.leb_le in Hle. rewrite Hle.
        eexists. split; [reflexivity | right; reflexivity].
      * eexists. split; [reflexivity | left; reflexivity].
  - intros now doc H. unfold isRefreshTokenExpired. rewrite H. reflexivity.
  - intros tz now linkedin uid doc w Hstored Hexp Htr Hnone.
    unfold getValidAccessToken, findOne, db_guard, bindM.
    rewrite Hstored. unfold isAccessTokenExpired.
    apply Z.leb_le in Hexp. rewrite Hexp, Htr. simpl.
    unfold isRefreshTokenExpired. rewrite Hnone.
    unfold refreshAccessToken.
    destruct (linkedin (js_to_string (refresh_token doc))) as [data|desc err|m]; simpl.
    + unfold storeTokens, findOneAndUpdate, db_guard, ret. simpl.
      split; [intros msg H; discriminate H | reflexivity].
    + split; [|reflexivity]. intros msg H. injection H as <-.
      intros [H|H]; discriminate H.
    + split; [|reflexivity]. intros msg H. injection H as <-.
      intros [H|H]; discriminate H.
Qed.

(** C4: when the refresh request fails (an HTTP error response or a
    transport failure), [getValidAccessToken] fails with
    ["Token refresh failed: ..."] after exactly that one request, and the
    collection is exactly as it was: nothing is written. *)
Theorem getValidAccessToken_refresh_failure (tz : TimeZone) (now : Z)
    (linkedin : string -> TokenResponse) (uid : string) (doc : OAuthToken) (w : World)
    (Hstored : db w !! uid = Some doc)
    (Hexpired : expires_at doc <= now)
    (Hrt : js_truthy_str (refresh_token doc) = true)
    (Hrt_valid : isRefreshTokenExpired now doc = false)
    (Hfail : forall data, linkedin (js_to_string (refresh_token doc)) <> Resp_ok data) :
  exists msg w',
    getValidAccessToken tz now linkedin None uid w
      = (inl (String.append "Token refresh failed: " msg), w') /\
    db w' = db w /\ net_calls w' = S (net_calls w).
Proof.
  unfold getValidAccessToken, findOne, db_guard, bindM.
  rewrite Hstored. unfold isAccessTokenExpired.
  apply Z.leb_le in Hexpired. rewrite Hexpired, Hrt, Hrt_valid. simpl.
  unfold refreshAccessToken.
  destruct (linkedin (js_to_string (refresh_token doc))) as [data|desc err|m] eqn:Hresp.
  - exfalso. exact (Hfail data eq_refl).
  - do 2 eexists. split; [reflexivity | split; reflexivity].
  - do 2 eexists. split; [reflexivity | split; reflexivity].
Qed.

(** In a fixed-offset zone, adding seconds in local time adds them to the
    time value. *)
Lemma addSecondsLocal_fixed (off d n : Z) :
  addSecondsLocal (fixed_zone off) d n = d + n * 1000.
Proof. unfold addSecondsLocal, UTC, LocalTime, msPerSecond. simpl. lia. Qed.

Lemma addDaysLocal_fixed (off d n : Z) :
  addDaysLocal (fixed_zone off) d n = d + n * 86400000.
Proof. unfold addDaysLocal, UTC, LocalTime, msPerDay. simpl. lia. Qed.

(** The refresh path of [getValidAccessToken] in a fixed-offset zone:
    one request, the new access token returned, the document updated by
    the refreshed payload, and its [expires_at] now + expires_in seconds,
    later than the old one when expires_in is positive. *)
Lemma getValidAccessToken_refresh_fixed_zone (off now : Z)
    (linkedin : string -> TokenResponse) (uid : string) (doc : OAuthToken)
    (data : TokenData) (w : World)
    (Hstored : db w !! uid = Some doc)
    (Hexpired : expires_at doc <= now)
    (Hrt : js_truthy_str (refresh_token doc) = true)
    (Hrt_valid : isRefreshTokenExpired now doc = false)
    (Hok : linkedin (js_to_string (refresh_token doc)) = Resp_ok data)
    (Hpos : 0 < td_expires_in data) :
  let doc' := apply_update doc (token_update (fixed_zone off) now data) in
  getValidAccessToken (fixed_zone off) now linkedin None uid w
    = (inr (td_access_token data),
       {| db := <[uid := doc']> (db w); net_calls := S (net_calls w) |}) /\
  expires_at doc' = now + td_expires_in data * 1000 /\
  expires_at doc < expires_at doc'.
Proof.
  intros doc'.
  assert (Hexp' : expires_at doc' = now + td_expires_in data * 1000).
  { subst doc'. simpl. apply addSecondsLocal_fixed. }
  split; [|split; [exact Hexp' | lia]].
  unfold getValidAccessToken, findOne, db_guard, bindM.
  rewrite Hstored. unfold isAccessTokenExpired.
  apply Z.leb_le in Hexpired. rewrite Hexpired, Hrt, Hrt_valid. simpl.
  unfold refreshAccessToken. rewrite Hok.
  unfold storeTokens, findOneAndUpdate, db_guard, upsert_doc, ret. simpl.
  rewrite Hstored. reflexivity.
Qed.

(** [storeTokens] then the read of [getValidAccessToken] in a fixed-offset
    zone: the stored access token is the one supplied and [expires_at] is
    exactly now + expires_in seconds. *)
Lemma storeTokens_roundtrip_fixed_zone (off now : Z) (uid : string)
    (data : TokenData) (tok : string) (w : World)
    (Htok : td_access_token data = Some tok) :
  exists doc,
    storeTokens (fixed_zone off) now None uid data w
      = (inr doc, set_db w (<[uid := doc]> (db w))) /\
    access_token doc = Some tok /\
    expires_at doc = now + td_expires_in data * 1000.
Proof.
  unfold storeTokens, findOneAndUpdate, db_guard.
  eexists. split; [reflexivity|].
  unfold upsert_doc. destruct (db w !! uid); simpl; rewrite Htok;
    split; try reflexivity; apply addSecondsLocal_fixed.
Qed.

(** The refresh request answered for the failing input of C5. *)
Definition linkedin_short_lived (rt : string) : TokenResponse :=
  if String.eqb rt "r"
  then Resp_ok {| td_access_token := Some "a2"; td_expires_in := 600;
                  td_refresh_token := Some "r2"; td_refresh_token_expires_in := None;
                  td_token_type := None; td_scope := None |}
  else Resp_transport "connect ECONNREFUSED".

(** 2026-11-01T06:30:00Z, 01:30 EST in the repeated hour. *)
Definition now_repeated_hour : Z := 1793514600000.

Definition doc_u2 : OAuthToken :=
  {| user_id := "u2"; access_token := Some "a1"; refresh_token := Some "r";
     token_type := "Bearer"; expires_at := now_repeated_hour;
     refresh_expires_at := None; scope := None |}.

(** C5 (failing input): in America/New_York at 01:30 EST during the repeated
    hour, refreshing an expired token with [expires_in = 600] sends one
    request and returns the new token, but stores [expires_at] 50 minutes
    in the past (05:40Z), earlier than the old value: local 01:30 + 10 min
    = 01:40 is read back as EDT. *)
Theorem getValidAccessToken_refresh_dst_repeated_hour :
  let w := {| db := {[ "u2" := doc_u2 ]}; net_calls := 0 |} in
  let res := getValidAccessToken new_york_2026 now_repeated_hour
               linkedin_short_lived None "u2" w in
  fst res = inr (Some "a2") /\
  net_calls (snd res) = 1%nat /\
  option_map expires_at (db (snd res) !! "u2") = Some 1793511600000 /\
  1793511600000 < expires_at doc_u2.
Proof. vm_compute. repeat split; reflexivity. Qed.

(** 2026-09-15T12:00:00Z (08:00 EDT). *)
Definition now_september : Z := 1789473600000.

Definition data_60_days : TokenData :=
  {| td_access_token := Some "a"; td_expires_in := 5184000;
     td_refresh_token := Some "r"; td_refresh_token_expires_in := Some 31536000;
     td_token_type := Some "Bearer"; td_scope := Some "openid profile email" |}.

(** C7 (failing input): with the server in America/New_York, tokens stored
    on 2026-09-15 with [expires_in = 5184000] (60 days) read back with the
    supplied access token but an [expires_at] of 2026-11-14T13:00Z, one
    hour (3600 s) after now + expires_in. *)
Theorem storeTokens_roundtrip_dst :
  let w := {| db := ∅; net_calls := 0 |} in
  let w1 := snd (storeTokens new_york_2026 now_september None "u1" data_60_days w) in
  fst (getValidAccessToken new_york_2026 now_september linkedin_short_lived None "u1" w1)
    = inr (Some "a") /\
  option_map expires_at (db w1 !! "u1")
    = Some (now_september + 5184000 * 1000 + 3600000).
Proof. vm_compute. split; reflexivity. Qed.

(** C6: [revokeTokens] succeeds whether or not a document exists; called
    twice in a row both calls succeed and no document is left for the user. *)
Theorem revokeTokens_idempotent (uid : string) (w : World) :
  let (r1, w1) := revokeTokens None uid w in
  let (r2, w2) := revokeTokens None uid w1 in
  r1 = inr tt /\ r2 = inr tt /\ db w2 !! uid = None /\ db w2 = db w1.
Proof.
  run_m. split; [reflexivity | split; [reflexivity | split]].
  - apply lookup_delete_eq.
  - apply delete_delete_eq.
Qed.

(** C9 (as stated, refuted): the query has no duration; asked about a one
    hour window it still returns a document expiring in two hours. *)
Definition doc_in_two_hours : OAuthToken :=
  {| user_id := "u3"; access_token := Some "a"; refresh_token := Some "r";
     token_type := "Bearer"; expires_at := 7200000;
     refresh_expires_at := None; scope := None |}.

Lemma findTokensNeedingRefresh_fixed_window :
  In doc_in_two_hours
     (findTokensNeedingRefresh_docs (fixed_zone 0) 0 {[ "u3" := doc_in_two_hours ]}) /\
  ~ (expires_at doc_in_two_hours <= 0 + 3600000).
Proof. split; [vm_compute; left; reflexivity | simpl; lia]. Qed.

(** C9 (amended): [findTokensNeedingRefresh] returns exactly the stored
    documents whose [expires_at] is at or before now moved one calendar day
    ahead in local time (already expired documents included) and whose
    [refresh_token] is present and non-null; in a fixed-offset zone the
    bound is now + 24 h; with the database reachable the query returns that
    list and changes nothing. *)
Theorem findTokensNeedingRefresh_spec (tz : TimeZone) (now : Z) (d : OAuthToken) (w : World) :
  (In d (findTokensNeedingRefresh_docs tz now (db w)) <->
   (exists uid, db w !! uid = Some d) /\
   expires_at d <= addDaysLocal tz now 1 /\
   refresh_token d <> None) /\
  findTokensNeedingRefresh tz now None w
    = (inr (findTokensNeedingRefresh_docs tz now (db w)), w) /\
  (forall off, addDaysLocal (fixed_zone off) now 1 = now + 86400000).
Proof.
  split; [|split; [reflexivity | intros off; rewrite addDaysLocal_fixed; lia]].
  unfold findTokensNeedingRefresh_docs, needs_refresh_query.
  rewrite <- list_elem_of_In, list_elem_of_filter, list_elem_of_In, in_map_iff.
  split.
  - intros [Hq [[k x] [<- Hin]]]. simpl in *.
    apply list_elem_of_In in Hin.
    apply andb_prop in Hq as [Hle Hrt].
    apply elem_of_map_to_list in Hin.
    split; [exists k; exact Hin|]. split; [apply Z.leb_le; exact Hle|].
    destruct (refresh_token x); [discriminate | discriminate Hrt].
  - intros [[uid Hl] [Hle Hrt]]. split.
    + apply andb_true_intro. split; [apply Z.leb_le; exact Hle|].
      destruct (refresh_token d); [reflexivity | contradiction].
    + exists (uid, d). split; [reflexivity|]. apply list_elem_of_In.
      apply elem_of_map_to_list. exact Hl.
Qed.

(** C10: a payload without [refresh_token_expires_in] is stored with a null
    [refresh_expires_at], whatever the document held before, so its refresh
    token never counts as expired afterwards; in particular a successful
    refresh in [getValidAccessToken] whose response omits the field leaves
    a document whose refresh token never expires. *)
Theorem storeTokens_drops_refresh_expiry :
  (forall tz now uid data w,
     td_refresh_token_expires_in data = None ->
     exists doc,
       storeTokens tz now None uid data w = (inr doc, set_db w (<[uid := doc]> (db w))) /\
       refresh_expires_at doc = None /\
       forall t, isRefreshTokenExpired t doc = false) /\
  (forall tz now linkedin uid doc w data,
     db w !! uid = Some doc ->
     expires_at doc <= now ->
     js_truthy_str (refresh_token doc) = true ->
     isRefreshTokenExpired now doc = false ->
     linkedin (js_to_string (refresh_token doc)) = Resp_ok data ->
     td_refresh_token_expires_in data = None ->
     exists doc',
       db (snd (getValidAccessToken tz now linkedin None uid w)) !! uid = Some doc' /\
       refresh_expires_at doc' = None /\
       forall t, isRefreshTokenExpired t doc' = false).
Proof.
  split.
  - intros tz now uid data w Hnone.
    unfold storeTokens, findOneAndUpdate, db_guard.
    eexists. split; [reflexivity|].
    unfold upsert_doc, token_update, isRefreshTokenExpired.
    rewrite Hnone. simpl.
    destruct (db w !! uid); simpl; split; reflexivity.
  - intros tz now linkedin uid doc w data Hstored Hexp Hrt Hrv Hok Hnone.
    unfold getValidAccessToken, findOne, db_guard, bindM.
    rewrite Hstored. unfold isAccessTokenExpired.
    apply Z.leb_le in Hexp. rewrite Hexp, Hrt, Hrv. simpl.
    unfold refreshAccessToken. rewrite Hok.
    unfold storeTokens, findOneAndUpdate, db_guard, ret. simpl.
    eexists. split; [apply lookup_insert_eq|].
    unfold upsert_doc, token_update, isRefreshTokenExpired.
    rewrite Hnone. simpl.
    destruct (db w !! uid); simpl; split; reflexivity.
Qed.

(** *** The sweep *)

Lemma refresh_one_never_throws (tz : TimeZone) (now : Z)
    (linkedin : string -> TokenResponse) (db_down : option string)
    (res : RefreshResults) (d : OAuthToken) (w : World) :
  exists res' w', refresh_one tz now linkedin db_down res d w = (inr res', w') /\
    (success res' + failed res' = S (success res + failed res))%nat.
Proof.
  unfold refresh_one, tryM.
  destruct (isRefreshTokenExpired now d).
  - do 2 eexists. split; [reflexivity|]. simpl. lia.
  - unfold bindM, refreshAccessToken.
    destruct (linkedin (js_to_string (refresh_token d))) as [data|desc err|m].
    + unfold storeTokens, findOneAndUpdate, db_guard.
      destruct db_down as [e|]; simpl; do 2 eexists; (split; [reflexivity|]); simpl; lia.
    + do 2 eexists. split; [reflexivity|]. simpl. lia.
    + do 2 eexists. split; [reflexivity|]. simpl. lia.
Qed.

Lemma refresh_loop_never_throws (tz : TimeZone) (now : Z)
    (linkedin : string -> TokenResponse) (db_down : option string)
    (docs : list OAuthToken) :
  forall res w, exists res' w',
    refresh_loop tz now linkedin db_down docs res w = (inr res', w') /\
    (success res' + failed res' = success res + failed res + length docs)%nat.
Proof.
  induction docs as [|d rest IH]; intros res w.
  - exists res, w. split; [reflexivity|]. simpl. lia.
  - simpl. unfold bindM.
    destruct (refresh_one_never_throws tz now linkedin db_down res d w)
      as [res1 [w1 [Hone Hcount]]].
    rewrite Hone.
    destruct (IH res1 w1) as [res2 [w2 [Hrest Hcount2]]].
    exists res2, w2. split; [exact Hrest | lia].
Qed.

Lemma refresh_one_ok (tz : TimeZone) (now : Z) (linkedin : string -> TokenResponse)
    (res : RefreshResults) (d : OAuthToken) (data : TokenData) (w : World)
    (Hrv : isRefreshTokenExpired now d = false)
    (Hok : linkedin (js_to_string (refresh_token d)) = Resp_ok data) :
  refresh_one tz now linkedin None res d w
    = (inr (record_success res),
       {| db := <[user_id d := upsert_doc (db w) (user_id d) (token_update tz now data)]> (db w);
          net_calls := S (net_calls w) |}).
Proof.
  unfold refresh_one, tryM. rewrite Hrv.
  unfold bindM, refreshAccessToken. rewrite Hok. reflexivity.
Qed.

Lemma refresh_one_transport (tz : TimeZone) (now : Z) (linkedin : string -> TokenResponse)
    (res : RefreshResults) (d : OAuthToken) (m : string) (w : World)
    (Hrv : isRefreshTokenExpired now d = false)
    (Hko : linkedin (js_to_string (refresh_token d)) = Resp_transport m) :
  refresh_one tz now linkedin None res d w
    = (inr (record_failure res (user_id d) (String.append "Token refresh failed: " m)),
       tick w).
Proof.
  unfold refresh_one, tryM. rewrite Hrv.
  unfold bindM, refreshAccessToken. rewrite Hko. reflexivity.
Qed.

(** C8 (as stated, refuted): when the query for expiring tokens fails (the
    database is unreachable), [refreshExpiringTokens] throws. *)
Lemma refreshExpiringTokens_query_failure_throws :
  refreshExpiringTokens (fixed_zone 0) 0 linkedin_short_lived
    (Some "connection refused") {| db := ∅; net_calls := 0 |}
  = (inl "Failed to refresh expiring tokens: connection refused",
     {| db := ∅; net_calls := 0 |}).
Proof. reflexivity. Qed.

Lemma refresh_failures_cons (now : Z) (linkedin : string -> TokenResponse)
    (db_down : option string) (d : OAuthToken) (rest : list OAuthToken) :
  refresh_failures now linkedin db_down (d :: rest) =
  match refresh_failure now linkedin db_down d with
  | Some m => [(user_id d, m)]
  | None => []
  end ++ refresh_failures now linkedin db_down rest.
Proof. reflexivity. Qed.

(** One document of the sweep: the iteration always completes, with
    either one more success or one more failure recorded with its message. *)
Lemma refresh_one_result (tz : TimeZone) (now : Z)
    (linkedin : string -> TokenResponse) (db_down : option string)
    (res : RefreshResults) (d : OAuthToken) (w : World) :
  exists w', refresh_one tz now linkedin db_down res d w =
    (inr (match refresh_failure now linkedin db_down d with
          | None => record_success res
          | Some m => record_failure res (user_id d) m
          end), w').
Proof.
  unfold refresh_one, refresh_failure, tryM.
  destruct (isRefreshTokenExpired now d); [eexists; reflexivity|].
  unfold bindM, refreshAccessToken.
  destruct (linkedin (js_to_string (refresh_token d))) as [data|desc err|m];
    [|eexists; reflexivity..].
  unfold storeTokens, findOneAndUpdate, db_guard.
  destruct db_down; simpl; eexists; reflexivity.
Qed.

(** C8 (amended): [refreshExpiringTokens] throws only when the query for
    the documents needing refresh fails, rethrowing its message. Once the
    documents are loaded, the loop never throws: every document whose
    refresh token has expired, whose refresh fails or whose store fails is
    counted in [failed] and listed in [errors] as [(userId, message)], in
    order, the others are counted in [success], and there is one count per
    document. Over one document whose refresh succeeds and one whose
    refresh fails with a transport error the result is success 1, failed 1,
    a single error entry for the second user, and that user's document is
    unchanged in the store. *)
Theorem refreshExpiringTokens_isolation :
  (forall tz now linkedin db_down w msg w',
     refreshExpiringTokens tz now linkedin db_down w = (inl msg, w') ->
     exists e, db_down = Some e /\
               msg = String.append "Failed to refresh expiring tokens: " e /\ w' = w) /\
  (forall tz now linkedin db_down docs res w,
     exists res' w',
       refresh_loop tz now linkedin db_down docs res w = (inr res', w') /\
       errors res' = errors res ++ refresh_failures now linkedin db_down docs /\
       failed res' = (failed res + length (refresh_failures now linkedin db_down docs))%nat /\
       (success res' + failed res' = success res + failed res + length docs)%nat) /\
  (forall tz now linkedin u1 u2 d1 d2 data m n,
     u1 <> u2 -> user_id d1 = u1 -> user_id d2 = u2 ->
     needs_refresh_query tz now d1 = true -> needs_refresh_query tz now d2 = true ->
     isRefreshTokenExpired now d1 = false -> isRefreshTokenExpired now d2 = false ->
     linkedin (js_to_string (refresh_token d1)) = Resp_ok data ->
     linkedin (js_to_string (refresh_token d2)) = Resp_transport m ->
     exists res w',
       refreshExpiringTokens tz now linkedin None
         {| db := <[u1 := d1]> {[u2 := d2]}; net_calls := n |} = (inr res, w') /\
       success res = 1%nat /\ failed res = 1%nat /\
       errors res = [(u2, String.append "Token refresh failed: " m)] /\
       db w' !! u2 = Some d2).
Proof.
  split; [|split].
  - intros tz now linkedin db_down w msg w' H.
    unfold refreshExpiringTokens, tryM, bindM, findTokensNeedingRefresh, db_guard in H.
    destruct db_down as [e|].
    + simpl in H. injection H as <- <-. exists e. auto.
    + simpl in H.
      destruct (refresh_loop_never_throws tz now linkedin None
                  (findTokensNeedingRefresh_docs tz now (db w)) empty_results w)
        as [res' [w'' [Hl _]]].
      rewrite Hl in H. discriminate H.
  - intros tz now linkedin db_down docs.
    induction docs as [|d rest IH]; intros res w.
    + exists res, w. simpl. rewrite app_nil_r. repeat split; lia.
    + cbn [refresh_loop]. unfold bindM.
      destruct (refresh_one_result tz now linkedin db_down res d w) as [w1 Hone].
      rewrite Hone, refresh_failures_cons.
      destruct (refresh_failure now linkedin db_down d) as [m|] eqn:Hf.
      * destruct (IH (record_failure res (user_id d) m) w1)
          as [res' [w' [Hl [He [Hc Hs]]]]].
        exists res', w'. simpl in He, Hc, Hs.
        rewrite <- app_assoc in He. simpl in He. simpl.
        split; [exact Hl|]. split; [exact He|]. split; [lia | lia].
      * destruct (IH (record_success res) w1) as [res' [w' [Hl [He [Hc Hs]]]]].
        exists res', w'. simpl in He, Hc, Hs. simpl.
        split; [exact Hl|]. split; [exact He|]. split; [lia | lia].
  - intros tz now linkedin u1 u2 d1 d2 data m n Hne Hid1 Hid2 Hq1 Hq2 Hrv1 Hrv2 Hok Hko.
    set (store := <[u1 := d1]> {[u2 := d2]}).
    assert (Hperm : map_to_list store ≡ₚ [(u1, d1); (u2, d2)]).
    { unfold store. rewrite map_to_list_insert.
      - rewrite map_to_list_singleton. reflexivity.
      - rewrite lookup_singleton_ne; [reflexivity | congruence]. }
    unfold refreshExpiringTokens, tryM, bindM, findTokensNeedingRefresh, db_guard.
    simpl. unfold findTokensNeedingRefresh_docs.
    symmetry in Hperm.
    apply Permutation_length_2_inv in Hperm as [Hl | Hl]; rewrite Hl; simpl;
      rewrite ?filter_cons_True by assumption; rewrite filter_nil; simpl;
      unfold bindM;
      repeat first [ rewrite (refresh_one_ok tz now linkedin _ d1 data) by assumption
                   | rewrite (refresh_one_transport tz now linkedin _ d2 m) by assumption ];
      simpl; do 2 eexists; (split; [reflexivity|]); simpl; rewrite ?Hid1, ?Hid2;
      (split; [reflexivity | split; [reflexivity | split; [reflexivity|]]]);
      unfold store;
      rewrite !lookup_insert_ne by congruence; apply lookup_singleton_eq.
Qed.

(* ------------------------------------------------------------------ *)
(** ** Witnesses: the hypotheses of the theorems hold on concrete inputs *)

Lemma getValidAccessToken_unexpired_witness :
  db {| db := {[ "u3" := doc_in_two_hours ]}; net_calls := 0 |} !! "u3"
    = Some doc_in_two_hours /\
  0 < expires_at doc_in_two_hours /\
  getValidAccessToken (fixed_zone 0) 0 linkedin_short_lived None "u3"
    {| db := {[ "u3" := doc_in_two_hours ]}; net_calls := 0 |}
  = (inr (access_token doc_in_two_hours), {| db := {[ "u3" := doc_in_two_hours ]}; net_calls := 0 |}).
Proof.
  split; [reflexivity | split; [simpl; lia |]].
  apply getValidAccessToken_unexpired; [reflexivity | simpl; lia].
Defined.

Lemma callback_state_check_witness :
  js_truthy_str None = false /\ js_truthy_str (Some "code") = true /\
  callback_checks {| q_code := Some "code"; q_state := Some "s1";
                     q_error := None; q_error_description := None |}
                  (Some (Some "s1")) = CB_exchange (Some None).
Proof.
  split; [reflexivity | split; [reflexivity |]].
  destruct (callback_state_check
              {| q_code := Some "code"; q_state := Some "s1";
                 q_error := None; q_error_description := None |}
              (Some (Some "s1")) eq_refl eq_refl) as [_ [H _]].
  apply (H "s1" "s1"); [reflexivity | discriminate | reflexivity | discriminate].
Defined.

(** The token endpoint timing out. *)
Definition linkedin_unreachable (rt : string) : TokenResponse :=
  Resp_transport "timeout of 10000ms exceeded".

Lemma getValidAccessToken_refresh_failure_witness :
  expires_at doc_u2 <= now_repeated_hour /\
  exists msg w',
    getValidAccessToken (fixed_zone 0) now_repeated_hour linkedin_unreachable None "u2"
      {| db := {[ "u2" := doc_u2 ]}; net_calls := 0 |}
      = (inl (String.append "Token refresh failed: " msg), w') /\
    db w' = {[ "u2" := doc_u2 ]} /\ net_calls w' = 1%nat.
Proof.
  split; [unfold doc_u2; simpl; lia |].
  refine (getValidAccessToken_refresh_failure (fixed_zone 0) now_repeated_hour
           linkedin_unreachable "u2" doc_u2
           {| db := {[ "u2" := doc_u2 ]}; net_calls := 0 |} _ _ _ _ _).
  - reflexivity.
  - unfold doc_u2. simpl. lia.
  - reflexivity.
  - reflexivity.
  - intros data. discriminate.
Defined.

(* ================================================================== *)
(** * Further properties of the service, the handlers and the middlewares *)

(** [getValidAccessToken] sends at most one request to the token endpoint,
    and whenever it fails the collection is left as it was. *)
Theorem getValidAccessToken_effects (tz : TimeZone) (now : Z)
    (linkedin : string -> TokenResponse) (db_down : option string)
    (uid : string) (w : World) :
  (net_calls (snd (getValidAccessToken tz now linkedin db_down uid w)) <= S (net_calls w))%nat /\
  (forall msg, fst (getValidAccessToken tz now linkedin db_down uid w) = inl msg ->
     db (snd (getValidAccessToken tz now linkedin db_down uid w)) = db w).
Proof.
  unfold getValidAccessToken, findOne, db_guard, bindM.
  destruct db_down as [e|]; simpl.
  - split; [lia | reflexivity].
  - destruct (db w !! uid) as [doc|]; simpl; [|split; [lia | reflexivity]].
    destruct (isAccessTokenExpired now doc); simpl; [|split; [lia | discriminate]].
    destruct (js_truthy_str (refresh_token doc)); simpl; [|split; [lia | reflexivity]].
    destruct (isRefreshTokenExpired now doc); simpl; [split; [lia | reflexivity]|].
    unfold refreshAccessToken.
    destruct (linkedin (js_to_string (refresh_token doc))); simpl;
      split; try lia; try reflexivity; discriminate.
Qed.

(** After [getValidAccessToken] has refreshed an expired token (fixed-offset
    zone, positive [expires_in], a response carrying an access token), a
    second call at the same instant returns the new token from the store
    without any request. *)
Theorem getValidAccessToken_refresh_then_read (off now : Z)
    (linkedin : string -> TokenResponse) (uid : string) (doc : OAuthToken)
    (data : TokenData) (tok : string) (w : World)
    (Hstored : db w !! uid = Some doc)
    (Hexpired : expires_at doc <= now)
    (Hrt : js_truthy_str (refresh_token doc) = true)
    (Hrt_valid : isRefreshTokenExpired now doc = false)
    (Hok : linkedin (js_to_string (refresh_token doc)) = Resp_ok data)
    (Htok : td_access_token data = Some tok)
    (Hpos : 0 < td_expires_in data) :
  let w1 := snd (getValidAccessToken (fixed_zone off) now linkedin None uid w) in
  fst (getValidAccessToken (fixed_zone off) now linkedin None uid w) = inr (Some tok) /\
  getValidAccessToken (fixed_zone off) now linkedin None uid w1 = (inr (Some tok), w1).
Proof.
  assert (Hfirst : getValidAccessToken (fixed_zone off) now linkedin None uid w =
    (inr (Some tok),
     {| db := <[uid := apply_update doc (token_update (fixed_zone off) now data)]> (db w);
        net_calls := S (net_calls w) |})).
  { unfold getValidAccessToken, findOne, db_guard, bindM.
    rewrite Hstored. unfold isAccessTokenExpired.
    apply Z.leb_le in Hexpired. rewrite Hexpired, Hrt, Hrt_valid. simpl.
    unfold refreshAccessToken. rewrite Hok.
    unfold storeTokens, findOneAndUpdate, db_guard, upsert_doc, ret. simpl.
    rewrite Hstored, Htok. reflexivity. }
  simpl. rewrite Hfirst. simpl. split; [reflexivity|].
  unfold getValidAccessToken, findOne, db_guard, bindM. simpl.
  rewrite lookup_insert_eq. unfold isAccessTokenExpired. simpl.
  rewrite addSecondsLocal_fixed.
  replace (now + td_expires_in data * 1000 <=? now) with false
    by (symmetry; apply Z.leb_gt; lia).
  simpl. rewrite Htok. reflexivity.
Qed.

(** After [revokeTokens] deletes a user's document, [getValidAccessToken]
    fails with ["No OAuth token found for user"], without any request. *)
Theorem revokeTokens_then_getValidAccessToken (tz : TimeZone) (now : Z)
    (linkedin : string -> TokenResponse) (uid : string) (doc : OAuthToken) (w : World)
    (Hstored : db w !! uid = Some doc) :
  let w1 := snd (revokeTokens None uid w) in
  getValidAccessToken tz now linkedin None uid w1 = (inl "No OAuth token found for user", w1).
Proof.
  simpl. unfold getValidAccessToken, findOne, db_guard, bindM. simpl.
  rewrite lookup_delete_eq. reflexivity.
Qed.

(** The number of requests the sweep's loop sends is the number of loaded
    documents whose refresh token has not expired: documents with an
    expired refresh token are skipped without a request. *)
Theorem refresh_loop_net_calls (tz : TimeZone) (now : Z)
    (linkedin : string -> TokenResponse) (db_down : option string)
    (docs : list OAuthToken) :
  forall res w,
    net_calls (snd (refresh_loop tz now linkedin db_down docs res w)) =
    (net_calls w + length (filter (fun d => isRefreshTokenExpired now d = false) docs))%nat.
Proof.
  induction docs as [|d rest IH]; intros res w.
  - simpl. lia.
  - simpl. unfold bindM, refresh_one, tryM.
    destruct (isRefreshTokenExpired now d) eqn:He.
    + rewrite filter_cons_False by congruence. simpl. rewrite IH. reflexivity.
    + rewrite filter_cons_True by congruence. simpl.
      unfold bindM, refreshAccessToken.
      destruct (linkedin (js_to_string (refresh_token d))) as [data|desc err|m]; simpl.
      * unfold storeTokens, findOneAndUpdate, db_guard.
        destruct db_down; simpl; rewrite IH; simpl; lia.
      * rewrite IH. simpl. lia.
      * rewrite IH. simpl. lia.
Qed.

(** Every failure the sweep counts is listed in [errors]: one entry per
    failed document. *)
Theorem refreshExpiringTokens_errors_count (tz : TimeZone) (now : Z)
    (linkedin : string -> TokenResponse) (db_down : option string)
    (w : World) (res : RefreshResults) (w' : World)
    (Hrun : refreshExpiringTokens tz now linkedin db_down w = (inr res, w')) :
  length (errors res) = failed res.
Proof.
  assert (Hloop : forall docs res0 w0 res1 w1,
            refresh_loop tz now linkedin db_down docs res0 w0 = (inr res1, w1) ->
            length (errors res0) = failed res0 ->
            length (errors res1) = failed res1).
  { induction docs as [|d rest IH]; intros res0 w0 res1 w1 H Hinv.
    - simpl in H. injection H as <- _. exact Hinv.
    - simpl in H. unfold bindM in H.
      destruct (refresh_one tz now linkedin db_down res0 d w0) as [[e|r] wr] eqn:Hone.
      + discriminate H.
      + apply (IH r wr res1 w1 H).
        unfold refresh_one, tryM, bindM in Hone.
        destruct (isRefreshTokenExpired now d).
        * injection Hone as <- _. simpl. rewrite length_app. simpl. lia.
        * unfold refreshAccessToken in Hone.
          destruct (linkedin (js_to_string (refresh_token d))); simpl in Hone.
          -- unfold storeTokens, findOneAndUpdate, db_guard in Hone.
             destruct db_down; simpl in Hone; injection Hone as <- _; simpl;
               rewrite ?length_app; simpl; lia.
          -- injection Hone as <- _. simpl. rewrite length_app. simpl. lia.
          -- injection Hone as <- _. simpl. rewrite length_app. simpl. lia. }
  unfold refreshExpiringTokens, tryM, bindM, findTokensNeedingRefresh, db_guard in Hrun.
  destruct db_down as [e|]; simpl in Hrun; [discriminate Hrun|].
  destruct (refresh_loop tz now linkedin None _ empty_results w) as [[e|r] wr] eqn:Hl;
    [discriminate Hrun|].
  injection Hrun as <- _. exact (Hloop _ _ _ _ _ Hl eq_refl).
Qed.

(** [optionalAuth] never rejects a request, whatever fails: it always
    calls [next()], with the request unchanged or with [req.user] set to
    the user of the request's id. *)
Theorem optionalAuth_never_rejects (tz : TimeZone) (now : Z)
    (linkedin : string -> TokenResponse) (db_down : option string)
    (users : gmap string UserDoc) (req : Request) (w : World) :
  exists req',
    fst (optionalAuth tz now linkedin db_down users req w) = inr (MwNext req') /\
    (req' = req \/
     exists u, users !! js_to_string (js_or_str (session_user_id req) (req_header_user_id req))
                 = Some u /\ req' = set_req_user req u).
Proof.
  unfold optionalAuth, tryM, bindM, hasValidToken, tryM, bindM, ret.
  destruct (js_truthy_str _); [|eexists; split; [reflexivity | left; reflexivity]].
  destruct (getValidAccessToken tz now linkedin db_down _ w) as [[e|x] w']; simpl;
    [eexists; split; [reflexivity | left; reflexivity]|].
  unfold findUserById, db_guard. destruct db_down as [e|]; simpl;
    [eexists; split; [reflexivity | left; reflexivity]|].
  destruct (users !! _) as [u|] eqn:Hu; simpl.
  - eexists. split; [reflexivity | right; exists u; split; reflexivity].
  - eexists. split; [reflexivity | left; reflexivity].
Qed.

(** [withAccessToken]: for a user whose stored access token has expired and
    cannot be refreshed (no refresh token, or an expired one), the request
    is answered 401 [token_expired] with the service's message, without any
    request to LinkedIn and without touching the collection, whether the
    user is identified by [req.user] (after [requireAuth]), the session or
    the [x-user-id] header. *)
Theorem withAccessToken_unrefreshable_is_401 (tz : TimeZone) (now : Z)
    (linkedin : string -> TokenResponse) (req : Request) (uid : string)
    (doc : OAuthToken) (w : World)
    (Hid : access_user_id req = Some uid) (Huid : uid <> "")
    (Hstored : db w !! uid = Some doc)
    (Hexpired : expires_at doc <= now)
    (Hnr : refresh_token doc = None \/
           exists t, refresh_expires_at doc = Some t /\ t <= now) :
  exists msg,
    withAccessToken tz now linkedin None req w
      = (inr (MwReply 401 (error_body "token_expired" msg)), w) /\
    reauth_error msg.
Proof.
  unfold withAccessToken. rewrite Hid.
  assert (Ht : js_truthy_str (Some uid) = true).
  { simpl. apply String.eqb_neq in Huid. rewrite Huid. reflexivity. }
  rewrite Ht. simpl.
  unfold tryM, bindM, getValidAccessToken, findOne, db_guard, bindM. simpl.
  rewrite Hstored. unfold isAccessTokenExpired.
  apply Z.leb_le in Hexpired. rewrite Hexpired. simpl.
  destruct Hnr as [Hnone | [t [Ht' Hle]]].
  - rewrite Hnone. simpl. eexists. split; [reflexivity | left; reflexivity].
  - destruct (js_truthy_str (refresh_token doc)); simpl.
    + unfold isRefreshTokenExpired. rewrite Ht'. apply Z.leb_le in Hle. rewrite Hle.
      eexists. split; [reflexivity | right; reflexivity].
    + eexists. split; [reflexivity | left; reflexivity].
Qed.

(** [status]: whenever the token of the requested user is valid (stored
    unexpired, or refreshed during the check) but the User document is
    missing, [user._id] on null throws and the handler answers 500
    [status_check_failed], whether the id comes from the session or the
    query; [requireAuth] answers 401 [user_not_found] for the same user,
    whether the id comes from the session or the [x-user-id] header. Both
    keep the effects of the token check. *)
Theorem status_missing_user_is_500 (tz : TimeZone) (now : Z)
    (linkedin : string -> TokenResponse) (users : gmap string UserDoc)
    (uid : string) (t : option string) (w w' : World)
    (Huid : uid <> "")
    (Hvalid : getValidAccessToken tz now linkedin None uid w = (inr t, w'))
    (Hnouser : users !! uid = None) :
  (forall req, js_or_str (session_user_id req) (req_query_user_id req) = Some uid ->
     status tz now linkedin None users req w =
     (inr (500, error_body_details "status_check_failed"
                  "Failed to check authentication status" null_id_message), w')) /\
  (forall req, js_or_str (session_user_id req) (req_header_user_id req) = Some uid ->
     requireAuth tz now linkedin None users req w =
     (inr (MwReply 401 (error_body "user_not_found" "User not found")), w')).
Proof.
  assert (Ht : js_truthy_str (Some uid) = true).
  { simpl. apply String.eqb_neq in Huid. rewrite Huid. reflexivity. }
  split; intros req Hid.
  - unfold status. rewrite Hid, Ht. cbn [negb js_to_string].
    unfold tryM, bindM, hasValidToken, tryM, bindM. rewrite Hvalid.
    unfold ret, findUserById, db_guard. simpl. rewrite Hnouser. reflexivity.
  - unfold requireAuth. rewrite Hid, Ht. cbn [negb js_to_string].
    unfold tryM, bindM, hasValidToken, tryM, bindM. rewrite Hvalid.
    unfold ret, findUserById, db_guard. simpl. rewrite Hnouser. reflexivity.
Qed.

(** [generateState]: the hex encoding of the random bytes has two
    characters per byte (64 for 32 bytes) and decodes back to them, so
    distinct random bytes give distinct states. *)
Lemma hex_byte_roundtrip (b : Byte.byte) :
  (match hex_value (hex_digit (Nat.div (Byte.to_nat b) 16)),
         hex_value (hex_digit (Nat.modulo (Byte.to_nat b) 16)) with
   | Some h, Some l => Byte.of_nat (h * 16 + l)%nat
   | _, _ => None
   end) = Some b.
Proof. destruct b; reflexivity. Qed.

Theorem generateState_hex_roundtrip (bs : list Byte.byte) :
  of_hex (generateState bs) = Some bs /\
  String.length (generateState bs) = (2 * length bs)%nat /\
  (forall bs', generateState bs' = generateState bs -> bs' = bs).
Proof.
  assert (Hrt : forall l, of_hex (to_hex l) = Some l).
  { induction l as [|b rest IH]; [reflexivity|].
    cbn [to_hex of_hex]. pose proof (hex_byte_roundtrip b) as Hb.
    destruct (hex_value (hex_digit (Nat.div (Byte.to_nat b) 16))) as [h|];
      [|discriminate Hb].
    destruct (hex_value (hex_digit (Nat.modulo (Byte.to_nat b) 16))) as [l|];
      [|discriminate Hb].
    rewrite IH, Hb. reflexivity. }
  unfold generateState. split; [apply Hrt|]. split.
  - induction bs as [|b rest IH]; [reflexivity|]. simpl. rewrite IH. lia.
  - intros bs' Heq. pose proof (Hrt bs') as H1. rewrite Heq, Hrt in H1.
    injection H1 as H1. symmetry. exact H1.
Qed.

(* ------------------------------------------------------------------ *)
(** ** Witnesses of the further properties *)

(** A request whose session carries a user id. *)
Definition req_with_session_user (uid : string) : Request :=
  {| req_session := Some {| s_userId := Some uid |}; req_header_user_id := None;
     req_body_user_id := None; req_query_user_id := None;
     req_user := None; req_accessToken := None |}.

(** An expired token without refresh token. *)
Definition doc_u5 : OAuthToken :=
  {| user_id := "u5"; access_token := Some "a5"; refresh_token := None;
     token_type := "Bearer"; expires_at := 0;
     refresh_expires_at := None; scope := None |}.

(** An expired token whose refresh request fails. *)
Definition doc_u4 : OAuthToken :=
  {| user_id := "u4"; access_token := Some "a4"; refresh_token := Some "r4";
     token_type := "Bearer"; expires_at := 0;
     refresh_expires_at := None; scope := None |}.

(** A request as [requireAuth] passes it on: [req.user] set, no session. *)
Definition req_after_requireAuth_u5 : Request :=
  {| req_session := None; req_header_user_id := None;
     req_body_user_id := None; req_query_user_id := None;
     req_user := Some {| usr_id := "u5"; usr_name := "Ada";
                         usr_linkedin_url := "https://www.linkedin.com/in/ada" |};
     req_accessToken := None |}.

Lemma getValidAccessToken_refresh_then_read_witness :
  let w := {| db := {[ "u2" := doc_u2 ]}; net_calls := 0 |} in
  let w1 := snd (getValidAccessToken (fixed_zone 0) now_repeated_hour
                   linkedin_short_lived None "u2" w) in
  fst (getValidAccessToken (fixed_zone 0) now_repeated_hour linkedin_short_lived None "u2" w)
    = inr (Some "a2") /\
  getValidAccessToken (fixed_zone 0) now_repeated_hour linkedin_short_lived None "u2" w1
    = (inr (Some "a2"), w1).
Proof.
  refine (getValidAccessToken_refresh_then_read 0 now_repeated_hour linkedin_short_lived
            "u2" doc_u2 _ "a2" {| db := {[ "u2" := doc_u2 ]}; net_calls := 0 |}
            _ _ _ _ _ _ _).
  - reflexivity.
  - unfold doc_u2. simpl. lia.
  - reflexivity.
  - reflexivity.
  - reflexivity.
  - reflexivity.
  - simpl. lia.
Defined.

Lemma revokeTokens_then_getValidAccessToken_witness :
  let w1 := snd (revokeTokens None "u2" {| db := {[ "u2" := doc_u2 ]}; net_calls := 0 |}) in
  getValidAccessToken (fixed_zone 0) now_repeated_hour linkedin_short_lived None "u2" w1
    = (inl "No OAuth token found for user", w1).
Proof.
  exact (revokeTokens_then_getValidAccessToken (fixed_zone 0) now_repeated_hour
           linkedin_short_lived "u2" doc_u2
           {| db := {[ "u2" := doc_u2 ]}; net_calls := 0 |} eq_refl).
Defined.

Lemma refreshExpiringTokens_errors_count_witness :
  match fst (refreshExpiringTokens (fixed_zone 0) now_repeated_hour linkedin_short_lived None
               {| db := {[ "u2" := doc_u2; "u4" := doc_u4 ]}; net_calls := 0 |}) with
  | inr res => length (errors res) = failed res
  | inl _ => False
  end.
Proof.
  destruct (refreshExpiringTokens (fixed_zone 0) now_repeated_hour linkedin_short_lived None
              {| db := {[ "u2" := doc_u2; "u4" := doc_u4 ]}; net_calls := 0 |})
    as [[e|res] w'] eqn:Hrun; simpl.
  - vm_compute in Hrun. discriminate Hrun.
  - exact (refreshExpiringTokens_errors_count _ _ _ _ _ _ _ Hrun).
Defined.

Lemma withAccessToken_unrefreshable_is_401_witness :
  exists msg,
    withAccessToken (fixed_zone 0) 1000 linkedin_short_lived None req_after_requireAuth_u5
      {| db := {[ "u5" := doc_u5 ]}; net_calls := 0 |}
      = (inr (MwReply 401 (error_body "token_expired" msg)),
         {| db := {[ "u5" := doc_u5 ]}; net_calls := 0 |}) /\
    reauth_error msg.
Proof.
  apply (withAccessToken_unrefreshable_is_401 (fixed_zone 0) 1000 linkedin_short_lived
           req_after_requireAuth_u5 "u5" doc_u5
           {| db := {[ "u5" := doc_u5 ]}; net_calls := 0 |}).
  - reflexivity.
  - discriminate.
  - reflexivity.
  - unfold doc_u5. simpl. lia.
  - left. reflexivity.
Defined.

Lemma status_missing_user_is_500_witness :
  let w := {| db := {[ "u3" := doc_in_two_hours ]}; net_calls := 0 |} in
  status (fixed_zone 0) 0 linkedin_short_lived None ∅ (req_with_session_user "u3") w =
  (inr (500, error_body_details "status_check_failed"
               "Failed to check authentication status" null_id_message), w) /\
  requireAuth (fixed_zone 0) 0 linkedin_short_lived None ∅ (req_with_session_user "u3") w =
  (inr (MwReply 401 (error_body "user_not_found" "User not found")), w).
Proof.
  destruct (status_missing_user_is_500 (fixed_zone 0) 0 linkedin_short_lived ∅
              "u3" (Some "a") {| db := {[ "u3" := doc_in_two_hours ]}; net_calls := 0 |}
              {| db := {[ "u3" := doc_in_two_hours ]}; net_calls := 0 |})
    as [Hs Hr].
  - discriminate.
  - reflexivity.
  - reflexivity.
  - split; [apply Hs | apply Hr]; reflexivity.
Defined.

